(** * Feature selection by binomial deviance: the top-K mask and its frame

    Shallow embedding of the executable cells of
    [jupyter-book/preprocessing_visualization/feature_selection.ipynb]:

    <<
    idx = binomial_deviance.argsort()[-4000:]
    mask = np.zeros(adata.var_names.shape, dtype=bool)
    mask[idx] = True

    adata.var["highly_deviant"] = mask
    adata.var["binomial_deviance"] = binomial_deviance
    adata.write("s4d8_feature_selection.h5ad")
    >>

    The deviance itself is computed by [devianceFeatureSelection] of the R
    package scry and the ordering by NumPy's [ndarray.argsort]; neither is
    code of the notebook.  Both are taken as parameters: the sort together
    with the contract NumPy documents for it, the deviance routine as an
    arbitrary function from the count matrix to a score vector. *)

From Stdlib Require Import ZArith Lia.
From stdpp Require Import base list sorting strings gmap.

(** ** Scores

    The scores are real numbers; all the cell does with them is compare
    them.  They are kept abstract, with the comparison [ltb] for [<]. *)

Record strict_total_order {score : Type} (ltb : score → score → bool) : Prop := {
  ltb_irrefl : ∀ x, ltb x x = false;
  ltb_trans : ∀ x y z, ltb x y = true → ltb y z = true → ltb x z = true;
  ltb_total : ∀ x y, ltb x y = false → ltb y x = false → x = y
}.

(** ** Python sequences *)

Module Py.

(** [l[start:]]: a negative [start] counts from the end, and both ends are
    clamped to the sequence (CPython's slice index adjustment, step 1). *)
Definition slice_from {A : Type} (start : Z) (l : list A) : list A :=
  let n := Z.of_nat (length l) in
  let lo := if (start <? 0)%Z then Z.max (n + start) 0 else Z.min start n in
  drop (Z.to_nat lo) l.

End Py.

(** ** NumPy arrays *)

Module Np.

(** [np.zeros(shape, dtype=bool)] for a one-dimensional shape. *)
Definition zeros (n : nat) : list bool := replicate n false.

(** [mask[idx] = True] for an array [idx] of non-negative integer indices:
    an index outside the mask raises [IndexError] ([None] here). *)
Fixpoint setitem_true (mask : list bool) (idx : list nat) : option (list bool) :=
  match idx with
  | [] => Some mask
  | i :: idx' =>
      if decide (i < length mask) then setitem_true (<[i := true]> mask) idx'
      else None
  end.

(** [np.count_nonzero(mask)]: the number of [True] entries. *)
Definition count_nonzero (mask : list bool) : nat :=
  length (filter Is_true mask).

Section Argsort.
Context {score : Type} (ltb : score → score → bool).

(** What NumPy documents of [a.argsort()] with the default [kind]
    (quicksort, which the documentation lists as not stable): the result is
    a permutation of the indices of [a], and reading [a] through it gives a
    non-decreasing sequence.  The sort is a function: the same array gives
    the same permutation. *)
Record argsort_spec (argsort : list score → list nat) : Prop := {
  argsort_perm : ∀ a, argsort a ≡ₚ seq 0 (length a);
  argsort_sorted : ∀ a p q i j x y,
    p < q →
    argsort a !! p = Some i → argsort a !! q = Some j →
    a !! i = Some x → a !! j = Some y →
    ltb y x = false
}.

End Argsort.

End Np.

(** ** The selection cell, with the constant 4000 as the parameter [k] *)

Section SelectTopK.
Context {score : Type}.
Variable argsort : list score → list nat.

(** [idx = scores.argsort()[-k:]] *)
Definition top_idx (scores : list score) (k : nat) : list nat :=
  Py.slice_from (- Z.of_nat k) (argsort scores).

(** The three lines of the cell that build the mask; [n_vars] is
    [adata.var_names.shape]. *)
Definition highly_deviant_mask (n_vars : nat) (scores : list score) (k : nat)
  : option (list bool) :=
  Np.setitem_true (Np.zeros n_vars) (top_idx scores k).

(** [select_top_k(scores, k)]: the mask has one entry per score. *)
Definition select_top_k (scores : list score) (k : nat) : option (list bool) :=
  highly_deviant_mask (length scores) scores k.

End SelectTopK.

(** ** The selection as the specification words it

    "Sorts indices by score ascending, marks the last [k] as selected; if
    [k] exceeds vector length, selects all."  The cell is the instance
    [k = 4000]: its slice [[-4000:]] is the last 4000 indices of the sorted
    order, and for every [k] from 1 on the slice [[-k:]] is the last [k]. *)

Section SelectLastK.
Context {score : Type}.
Variable argsort : list score → list nat.

(** The last [k] entries of a sequence, all of it when it has fewer. *)
Definition last_k {A : Type} (k : nat) (l : list A) : list A :=
  drop (length l - k) l.

(** The mask lines of the cell over the last [k] indices of the sorted
    order. *)
Definition select_last_k (scores : list score) (k : nat) : option (list bool) :=
  Np.setitem_true (Np.zeros (length scores)) (last_k k (argsort scores)).

End SelectLastK.

(** ** Reference sorts by insertion, on index lists *)

Section InsertionArgsort.
Context {score : Type} (ltb : score → score → bool).

(** [a[i] < a[j]], false when an index is out of range. *)
Definition lt_at (a : list score) (i j : nat) : bool :=
  match a !! i, a !! j with
  | Some x, Some y => ltb x y
  | _, _ => false
  end.

(** Insert [i] in front of a sorted list of later indices; among equal
    scores [i] stays first. *)
Fixpoint insert_first (lt : nat → nat → bool) (i : nat) (l : list nat) : list nat :=
  match l with
  | [] => [i]
  | j :: l' => if lt j i then j :: insert_first lt i l' else i :: j :: l'
  end.

(** Insert [i] into a sorted list of later indices; among equal scores [i]
    goes last. *)
Fixpoint insert_last (lt : nat → nat → bool) (i : nat) (l : list nat) : list nat :=
  match l with
  | [] => [i]
  | j :: l' => if lt i j then i :: j :: l' else j :: insert_last lt i l'
  end.

(** [i] may stand before [j] in a list that ascends for [lt]. *)
Definition ascending (lt : nat → nat → bool) (i j : nat) : Prop := lt j i = false.

(** The stable ascending sort of the indices ([kind="stable"]). *)
Definition stable_argsort (a : list score) : list nat :=
  foldr (insert_first (lt_at a)) [] (seq 0 (length a)).

(** An ascending sort that reverses every run of equal scores. *)
Definition antistable_argsort (a : list score) : list nat :=
  foldr (insert_last (lt_at a)) [] (seq 0 (length a)).

End InsertionArgsort.

(** ** pandas data frames *)

Module Pd.
Section DataFrame.
Context {score : Type}.

(** A column of a data frame, by dtype. *)
Inductive column : Type :=
  | BoolCol (v : list bool)
  | FloatCol (v : list score)
  | IntCol (v : list Z)
  | StrCol (v : list string).

Definition column_len (c : column) : nat :=
  match c with
  | BoolCol v => length v
  | FloatCol v => length v
  | IntCol v => length v
  | StrCol v => length v
  end.

(** A data frame: the row index and the columns in their order. *)
Record DataFrame : Type := mkDataFrame {
  index : list string;
  columns : list (string * column)
}.

(** [df[key]] on the columns. *)
Fixpoint lookup_column (cols : list (string * column)) (key : string) : option column :=
  match cols with
  | [] => None
  | (name, c) :: cols' => if decide (name = key) then Some c else lookup_column cols' key
  end.

(** Assigning a column: an existing column of that name is replaced where it
    stands, a new name is appended after the last column. *)
Fixpoint assign_column (cols : list (string * column)) (key : string) (c : column)
  : list (string * column) :=
  match cols with
  | [] => [(key, c)]
  | (name, c0) :: cols' =>
      if decide (name = key) then (name, c) :: cols'
      else (name, c0) :: assign_column cols' key c
  end.

(** [df[key] = values] for an array of values: a length other than the
    length of the index raises [ValueError] ([None] here). *)
Definition setitem (df : DataFrame) (key : string) (c : column) : option DataFrame :=
  if decide (column_len c = length (index df))
  then Some (mkDataFrame (index df) (assign_column (columns df) key c))
  else None.

End DataFrame.
Global Arguments column : clear implicits.
Global Arguments DataFrame : clear implicits.
End Pd.

(** ** The annotated matrix and the cells that write to it *)

Section Notebook.
Context {score : Type}.

(** The fields of an [AnnData] object: the cells-by-genes matrix [X], the
    per-cell and per-gene tables, and the named layers. *)
Record AnnData : Type := mkAnnData {
  X : list (list Z);
  obs : Pd.DataFrame score;
  var : Pd.DataFrame score;
  layers : list (string * list (list Z))
}.

(** [adata.var_names] is the index of [adata.var]. *)
Definition var_names (adata : AnnData) : list string := Pd.index (var adata).

Variable argsort : list score → list nat.

(** [devianceFeatureSelection(adata, assay="X")] followed by
    [rowData(sce)$binomial_deviance]: scry works on the copy of the object
    that the bridge hands to R, and returns a vector of scores ([.T] leaves
    a one-dimensional array as it is). *)
Variable devianceFeatureSelection : list (list Z) → list score.

(** Cell e349f348: build the mask and assign the two columns of
    [adata.var], in the order of the cell. *)
Definition feature_selection_cell (binomial_deviance : list score) (adata : AnnData)
  : option AnnData :=
  mask ← highly_deviant_mask argsort (length (var_names adata)) binomial_deviance 4000;
  var1 ← Pd.setitem (var adata) "highly_deviant" (Pd.BoolCol mask);
  var2 ← Pd.setitem var1 "binomial_deviance" (Pd.FloatCol binomial_deviance);
  Some (mkAnnData (X adata) (obs adata) var2 (layers adata)).

(** The notebook from [sc.read] to [adata.write], over a store of files by
    name; a file that cannot be read ends the run, and the writer stores the
    object as it is. *)
Definition notebook (files : gmap string AnnData) : option (gmap string AnnData) :=
  adata ← files !! "s4d8_normalization.h5ad";
  adata' ← feature_selection_cell (devianceFeatureSelection (X adata)) adata;
  Some (<["s4d8_feature_selection.h5ad" := adata']> files).


End Notebook.
Global Arguments AnnData : clear implicits.

(** A gene table as the cell leaves it, on which the cell is run again. *)
Definition adata_rerun : AnnData Z :=
  mkAnnData [[1; 0]; [0; 5]; [9; 0]]%Z
    (Pd.mkDataFrame ["c0"; "c1"; "c2"] [])
    (Pd.mkDataFrame ["g0"; "g1"]
       [("highly_deviant", Pd.BoolCol [false; true]);
        ("binomial_deviance", Pd.FloatCol [1; 2]%Z)])
    [].

Example slice_last_two : Py.slice_from (-2) [10; 20; 30] = [20; 30].
Proof. reflexivity. Qed.

Example slice_minus_zero : Py.slice_from (-0) [10; 20; 30] = [10; 20; 30].
Proof. reflexivity. Qed.

Example slice_past_start : Py.slice_from (-7) [10; 20; 30] = [10; 20; 30].
Proof. reflexivity. Qed.

Example stable_argsort_ties :
  stable_argsort Z.ltb [5; 1; 5; 1]%Z = [1; 3; 0; 2].
Proof. reflexivity. Qed.

Example antistable_argsort_ties :
  antistable_argsort Z.ltb [5; 1; 5; 1]%Z = [3; 1; 2; 0].
Proof. reflexivity. Qed.

Example select_top_1 :
  select_top_k (stable_argsort Z.ltb) [7; 9; 3]%Z 1 = Some [false; true; false].
Proof. reflexivity. Qed.

Example select_top_0 :
  select_top_k (stable_argsort Z.ltb) [7; 9; 3]%Z 0 = Some [true; true; true].
Proof. reflexivity. Qed.

(** ** Slices and masks *)

Lemma slice_from_neg {A : Type} (k : nat) (l : list A) :
  Py.slice_from (- Z.of_nat k) l = drop (if decide (k = 0) then 0 else length l - k) l.
Proof.
  unfold Py.slice_from. f_equal.
  destruct (decide (k = 0)) as [->|Hk]; [simpl; lia|].
  destruct (Z.ltb_spec (- Z.of_nat k) 0); lia.
Qed.

Lemma slice_from_length {A : Type} (k : nat) (l : list A) :
  0 < k → length (Py.slice_from (- Z.of_nat k) l) = k `min` length l.
Proof.
  intros Hk. rewrite slice_from_neg, length_drop.
  destruct (decide (k = 0)); lia.
Qed.

Lemma slice_from_sublist {A : Type} (start : Z) (l : list A) :
  Py.slice_from start l `sublist_of` l.
Proof. apply sublist_drop. Qed.

Lemma setitem_true_length mask idx mask' :
  Np.setitem_true mask idx = Some mask' → length mask' = length mask.
Proof.
  revert mask. induction idx as [|i idx IH]; intros mask; simpl.
  - by intros [= ->].
  - case_decide; [|done]. intros Hm%IH. by rewrite length_insert in Hm.
Qed.

Lemma setitem_true_is_Some mask idx :
  Forall (λ i, i < length mask) idx → is_Some (Np.setitem_true mask idx).
Proof.
  revert mask. induction idx as [|i idx IH]; intros mask Hall; simpl; [by eexists|].
  inversion_clear Hall as [|? ? Hi Hidx].
  rewrite decide_True by done. apply IH. by rewrite length_insert.
Qed.

Lemma setitem_true_lookup (mask : list bool) idx mask' j :
  Np.setitem_true mask idx = Some mask' →
  mask' !! j = (λ b, b || bool_decide (j ∈ idx)) <$> mask !! j.
Proof.
  revert mask. induction idx as [|i idx IH]; intros mask; simpl.
  - intros [= <-]. destruct (mask !! j) as [b|]; simpl; [|done].
    by rewrite orb_false_r.
  - destruct (decide (i < length mask)) as [Hi|]; [|done].
    intros Hm%IH. rewrite Hm. clear Hm.
    destruct (decide (i = j)) as [->|Hij].
    + rewrite list_lookup_insert_eq by done.
      destruct (lookup_lt_is_Some_2 mask j Hi) as [b ->]. simpl.
      rewrite (bool_decide_eq_true_2 (j ∈ j :: idx)) by left.
      by rewrite orb_true_r.
    + rewrite list_lookup_insert_ne by done.
      destruct (mask !! j) as [b|]; simpl; [|done].
      do 2 f_equal. apply bool_decide_ext. rewrite elem_of_cons.
      split; [auto|intros [?|?]; [congruence|done]].
Qed.

(** The mask written by the cell, in closed form: entry [j] says whether
    [j] is among the selected indices. *)
Lemma setitem_true_zeros n idx :
  Forall (λ i, i < n) idx →
  Np.setitem_true (Np.zeros n) idx = Some ((λ j, bool_decide (j ∈ idx)) <$> seq 0 n).
Proof.
  intros Hall.
  destruct (setitem_true_is_Some (Np.zeros n) idx) as [mask' Hm].
  { unfold Np.zeros. by rewrite length_replicate. }
  rewrite Hm. f_equal. apply list_eq. intros j.
  rewrite (setitem_true_lookup _ _ _ j Hm), list_lookup_fmap. unfold Np.zeros.
  destruct (decide (j < n)) as [Hj|Hj].
  - by rewrite lookup_replicate_2, lookup_seq_lt by done.
  - rewrite lookup_seq_ge by lia.
    by rewrite (proj1 (lookup_replicate_None n false j)) by lia.
Qed.

Lemma count_nonzero_indicator n idx :
  NoDup idx → Forall (λ i, i < n) idx →
  Np.count_nonzero ((λ j, bool_decide (j ∈ idx)) <$> seq 0 n) = length idx.
Proof.
  intros Hnd Hall. unfold Np.count_nonzero.
  transitivity (length (filter (λ j, j ∈ idx) (seq 0 n))).
  - induction (seq 0 n) as [|x l IH]; [done|].
    rewrite fmap_cons, !filter_cons.
    destruct (decide (x ∈ idx)) as [Hx|Hx].
    + rewrite bool_decide_eq_true_2 by done. rewrite decide_True by done.
      simpl. by rewrite IH.
    + rewrite bool_decide_eq_false_2 by done. by rewrite decide_False by auto.
  - apply Permutation_length, NoDup_Permutation; [|done|].
    + apply NoDup_filter, NoDup_seq.
    + intros x. rewrite list_elem_of_filter, elem_of_seq.
      rewrite Forall_forall in Hall.
      split; [by intros [? ?]|]. intros Hx. split; [done|]. apply Hall in Hx. lia.
Qed.

(** ** Order facts *)

Section Order.
Context {score : Type} (ltb : score → score → bool).
Hypothesis Hord : strict_total_order ltb.

Lemma ltb_asym x y : ltb x y = true → ltb y x = false.
Proof.
  intros Hxy. destruct (ltb y x) eqn:Hyx; [|done].
  by rewrite <- (ltb_irrefl ltb Hord x), <- (ltb_trans ltb Hord x y x Hxy Hyx).
Qed.

Lemma ltb_negtrans x y z : ltb y x = false → ltb z y = false → ltb z x = false.
Proof.
  intros Hyx Hzy. destruct (ltb z x) eqn:Hzx; [|done].
  destruct (ltb x y) eqn:Hxy.
  - by rewrite (ltb_trans ltb Hord z x y Hzx Hxy) in Hzy.
  - assert (x = y) as -> by by apply (ltb_total ltb Hord). congruence.
Qed.

Lemma lt_at_asym (a : list score) i j : lt_at ltb a i j = true → lt_at ltb a j i = false.
Proof.
  unfold lt_at. destruct (a !! i), (a !! j); try done. apply ltb_asym.
Qed.

Lemma lt_at_negtrans (a : list score) i j k :
  j < length a →
  lt_at ltb a j i = false → lt_at ltb a k j = false → lt_at ltb a k i = false.
Proof.
  intros [y Hy]%lookup_lt_is_Some_2. unfold lt_at. rewrite Hy.
  destruct (a !! i), (a !! k); try done. apply ltb_negtrans.
Qed.

(** A strictly increasing map preserves every comparison, both ways. *)
Lemma increasing_ltb (f : score → score) :
  (∀ x y, ltb x y = true → ltb (f x) (f y) = true) →
  ∀ x y, ltb (f x) (f y) = ltb x y.
Proof.
  intros Hf x y. destruct (ltb x y) eqn:Hxy; [by apply Hf|].
  destruct (ltb y x) eqn:Hyx.
  - by apply ltb_asym, Hf.
  - rewrite (ltb_total ltb Hord x y Hxy Hyx). apply (ltb_irrefl ltb Hord).
Qed.

End Order.

Lemma Z_ltb_order : strict_total_order Z.ltb.
Proof. split; intros; lia. Qed.

(** ** The insertion sorts meet the contract of [argsort] *)

Section InsertionSorted.
Variable lt : nat → nat → bool.
Variable dom : nat → Prop.
Hypothesis lt_asym : ∀ i j, lt i j = true → lt j i = false.
Hypothesis lt_negtrans : ∀ i j k, dom j → lt j i = false → lt k j = false → lt k i = false.

Lemma insert_first_perm i l : insert_first lt i l ≡ₚ i :: l.
Proof.
  induction l as [|j l IH]; simpl; [done|].
  destruct (lt j i); [|done]. by rewrite IH, Permutation_swap.
Qed.

Lemma insert_last_perm i l : insert_last lt i l ≡ₚ i :: l.
Proof.
  induction l as [|j l IH]; simpl; [done|].
  destruct (lt i j); [done|]. by rewrite IH, Permutation_swap.
Qed.

Lemma insert_first_sorted i l :
  Forall dom l → StronglySorted (ascending lt) l →
  StronglySorted (ascending lt) (insert_first lt i l).
Proof.
  induction l as [|j l IH]; simpl; intros Hdom Hs.
  { repeat constructor. }
  apply Forall_cons in Hdom as [Hj Hdom].
  apply StronglySorted_cons in Hs as [Hjl Hs].
  destruct (lt j i) eqn:Hji; apply StronglySorted_cons.
  - split; [|by apply IH]. rewrite insert_first_perm.
    constructor; [by apply lt_asym|done].
  - split; [|by apply StronglySorted_cons].
    constructor; [done|]. eapply Forall_impl; [exact Hjl|].
    intros k Hjk. by apply (lt_negtrans i j k).
Qed.

Lemma insert_last_sorted i l :
  Forall dom l → StronglySorted (ascending lt) l →
  StronglySorted (ascending lt) (insert_last lt i l).
Proof.
  induction l as [|j l IH]; simpl; intros Hdom Hs.
  { repeat constructor. }
  apply Forall_cons in Hdom as [Hj Hdom].
  apply StronglySorted_cons in Hs as [Hjl Hs].
  destruct (lt i j) eqn:Hij; apply StronglySorted_cons.
  - split; [|by apply StronglySorted_cons].
    constructor; [by apply lt_asym|]. eapply Forall_impl; [exact Hjl|].
    intros k Hjk. apply (lt_negtrans i j k); [done|by apply lt_asym|done].
  - split; [|by apply IH]. rewrite insert_last_perm. by constructor.
Qed.

Lemma foldr_insert_first_perm l : foldr (insert_first lt) [] l ≡ₚ l.
Proof. induction l as [|i l IH]; simpl; [done|]. by rewrite insert_first_perm, IH. Qed.

Lemma foldr_insert_last_perm l : foldr (insert_last lt) [] l ≡ₚ l.
Proof. induction l as [|i l IH]; simpl; [done|]. by rewrite insert_last_perm, IH. Qed.

Lemma foldr_insert_first_sorted l :
  Forall dom l → StronglySorted (ascending lt) (foldr (insert_first lt) [] l).
Proof.
  induction l as [|i l IH]; simpl; intros Hdom; [constructor|].
  apply Forall_cons in Hdom as [_ Hdom].
  apply insert_first_sorted; [|by apply IH]. by rewrite foldr_insert_first_perm.
Qed.

Lemma foldr_insert_last_sorted l :
  Forall dom l → StronglySorted (ascending lt) (foldr (insert_last lt) [] l).
Proof.
  induction l as [|i l IH]; simpl; intros Hdom; [constructor|].
  apply Forall_cons in Hdom as [_ Hdom].
  apply insert_last_sorted; [|by apply IH]. by rewrite foldr_insert_last_perm.
Qed.

Lemma ascending_lookup l p q i j :
  StronglySorted (ascending lt) l → p < q → l !! p = Some i → l !! q = Some j →
  lt j i = false.
Proof.
  intros Hs. revert p q. induction Hs as [|x l Hs IH Hx]; intros p q Hpq Hp Hq; [done|].
  destruct q as [|q]; [lia|]. simpl in Hq. destruct p as [|p]; simpl in Hp.
  - injection Hp as ->. by apply (Forall_lookup_1 _ _ _ _ Hx Hq).
  - apply (IH p q); [lia|done..].
Qed.

End InsertionSorted.

Section ReferenceSorts.
Context {score : Type} (ltb : score → score → bool).
Hypothesis Hord : strict_total_order ltb.

Lemma seq_in_range (a : list score) : Forall (λ j, j < length a) (seq 0 (length a)).
Proof. apply Forall_forall. intros j Hj%elem_of_seq. lia. Qed.

Lemma lt_at_lookup (a : list score) i j x y :
  a !! i = Some x → a !! j = Some y → lt_at ltb a i j = ltb x y.
Proof. unfold lt_at. by intros -> ->. Qed.

Lemma stable_argsort_spec : Np.argsort_spec ltb (stable_argsort ltb).
Proof.
  split; unfold stable_argsort.
  - intros a. apply foldr_insert_first_perm.
  - intros a p q i j x y Hpq Hp Hq Hi Hj.
    rewrite <- (lt_at_lookup a j i y x Hj Hi).
    eapply (ascending_lookup (lt_at ltb a)); [|exact Hpq|exact Hp|exact Hq].
    apply (foldr_insert_first_sorted _ (λ j, j < length a)).
    + apply lt_at_asym, Hord.
    + intros ? ? ?. by apply lt_at_negtrans.
    + apply seq_in_range.
Qed.

Lemma antistable_argsort_spec : Np.argsort_spec ltb (antistable_argsort ltb).
Proof.
  split; unfold antistable_argsort.
  - intros a. apply foldr_insert_last_perm.
  - intros a p q i j x y Hpq Hp Hq Hi Hj.
    rewrite <- (lt_at_lookup a j i y x Hj Hi).
    eapply (ascending_lookup (lt_at ltb a)); [|exact Hpq|exact Hp|exact Hq].
    apply (foldr_insert_last_sorted _ (λ j, j < length a)).
    + apply lt_at_asym, Hord.
    + intros ? ? ?. by apply lt_at_negtrans.
    + apply seq_in_range.
Qed.

End ReferenceSorts.

(** ** The selection under the contract of [argsort] *)

Section Contract.
Context {score : Type} (ltb : score → score → bool).
Variable argsort : list score → list nat.
Hypothesis Hsort : Np.argsort_spec ltb argsort.

Lemma argsort_length a : length (argsort a) = length a.
Proof. by rewrite (Np.argsort_perm ltb argsort Hsort a), length_seq. Qed.

Lemma argsort_NoDup a : NoDup (argsort a).
Proof. rewrite (Np.argsort_perm ltb argsort Hsort a). apply NoDup_seq. Qed.

Lemma argsort_elem_of a i : i ∈ argsort a ↔ i < length a.
Proof. rewrite (Np.argsort_perm ltb argsort Hsort a), elem_of_seq. lia. Qed.

Lemma top_idx_in_range scores k :
  Forall (λ i, i < length scores) (top_idx argsort scores k).
Proof.
  apply Forall_forall. intros i Hi. apply argsort_elem_of.
  eapply elem_of_sublist; [exact Hi|apply slice_from_sublist].
Qed.

Lemma top_idx_NoDup scores k : NoDup (top_idx argsort scores k).
Proof. eapply sublist_NoDup; [apply argsort_NoDup|apply slice_from_sublist]. Qed.

Lemma top_idx_length scores k :
  length (top_idx argsort scores k) =
  if decide (k = 0) then length scores else k `min` length scores.
Proof.
  unfold top_idx. destruct (decide (k = 0)) as [->|Hk].
  - rewrite slice_from_neg, length_drop, argsort_length, decide_True by done. lia.
  - rewrite slice_from_length, argsort_length by lia. done.
Qed.

(** The sorted order puts every strictly greater score later, so the
    selected suffix is closed under "strictly greater". *)
Lemma top_idx_upward scores k i j x y :
  i ∈ top_idx argsort scores k →
  scores !! i = Some x → scores !! j = Some y → ltb x y = true →
  j ∈ top_idx argsort scores k.
Proof.
  unfold top_idx. rewrite slice_from_neg.
  set (d := if decide (k = 0) then 0 else length (argsort scores) - k).
  intros [p Hp]%list_elem_of_lookup Hx Hy Hxy. rewrite lookup_drop in Hp.
  assert (j ∈ argsort scores) as [q Hq]%list_elem_of_lookup.
  { apply argsort_elem_of. by eapply lookup_lt_Some. }
  destruct (decide (q < d + p)) as [Hlt|Hge].
  - by rewrite (Np.argsort_sorted _ _ Hsort scores q (d + p) j i y x Hlt Hq Hp Hy Hx) in Hxy.
  - apply list_elem_of_lookup. exists (q - d). rewrite lookup_drop.
    by replace (d + (q - d)) with q by lia.
Qed.

(** With [k = 0] the slice is [[-0:]], that is [[0:]]: everything. *)
Lemma top_idx_all scores k :
  k = 0 ∨ length scores ≤ k → top_idx argsort scores k = argsort scores.
Proof.
  intros Hk. unfold top_idx. rewrite slice_from_neg, argsort_length.
  destruct (decide (k = 0)); [done|].
  by replace (length scores - k) with 0 by lia.
Qed.

Lemma select_top_k_closed scores k :
  select_top_k argsort scores k =
  Some ((λ j, bool_decide (j ∈ top_idx argsort scores k)) <$> seq 0 (length scores)).
Proof. apply setitem_true_zeros, top_idx_in_range. Qed.

Lemma select_top_k_lookup scores k mask i :
  select_top_k argsort scores k = Some mask →
  mask !! i = Some true ↔ i ∈ top_idx argsort scores k.
Proof.
  rewrite select_top_k_closed. intros [= <-].
  rewrite list_lookup_fmap. split.
  - destruct (seq 0 (length scores) !! i) as [j|] eqn:Hj; [|done].
    apply lookup_seq in Hj as [-> _]. simpl. intros [= Hb].
    by apply bool_decide_eq_true in Hb.
  - intros Hi. assert (i < length scores) as Hlt.
    { by apply (proj1 (Forall_forall _ _) (top_idx_in_range scores k)). }
    rewrite lookup_seq_lt by done. simpl. by rewrite bool_decide_eq_true_2.
Qed.

Lemma select_top_k_length scores k mask :
  select_top_k argsort scores k = Some mask → length mask = length scores.
Proof. rewrite select_top_k_closed. intros [= <-]. by rewrite length_fmap, length_seq. Qed.

Lemma mask_count_top_idx scores k mask :
  select_top_k argsort scores k = Some mask →
  Np.count_nonzero mask = length (top_idx argsort scores k).
Proof.
  rewrite select_top_k_closed. intros [= <-].
  apply count_nonzero_indicator; [apply top_idx_NoDup|apply top_idx_in_range].
Qed.

Lemma select_top_k_everything scores k :
  k = 0 ∨ length scores ≤ k →
  select_top_k argsort scores k = Some (replicate (length scores) true).
Proof.
  intros Hk. rewrite select_top_k_closed, top_idx_all by done. f_equal.
  apply list_eq. intros i. rewrite list_lookup_fmap.
  destruct (decide (i < length scores)) as [Hi|Hi].
  - rewrite lookup_seq_lt, lookup_replicate_2 by done. simpl.
    by rewrite bool_decide_eq_true_2 by by apply argsort_elem_of.
  - rewrite lookup_seq_ge by lia.
    by rewrite (proj1 (lookup_replicate_None _ true i)) by lia.
Qed.

End Contract.

(** ** The last [k] and the slice of the cell *)

Lemma slice_from_last_k {A : Type} (k : nat) (l : list A) :
  0 < k → Py.slice_from (- Z.of_nat k) l = last_k k l.
Proof. intros Hk. rewrite slice_from_neg. by rewrite decide_False by lia. Qed.

(** The cell's own slice: [[-4000:]] is the last 4000. *)
Lemma top_idx_last_k {score : Type} (argsort : list score → list nat)
    (scores : list score) (k : nat) :
  0 < k → top_idx argsort scores k = last_k k (argsort scores).
Proof. apply slice_from_last_k. Qed.

Lemma select_last_k_top_k {score : Type} (argsort : list score → list nat)
    (scores : list score) (k : nat) :
  0 < k → select_last_k argsort scores k = select_top_k argsort scores k.
Proof.
  intros Hk. unfold select_top_k, highly_deviant_mask, select_last_k.
  by rewrite top_idx_last_k.
Qed.

Lemma last_k_sublist {A : Type} (k : nat) (l : list A) : last_k k l `sublist_of` l.
Proof. apply sublist_drop. Qed.

Lemma last_k_length {A : Type} (k : nat) (l : list A) :
  length (last_k k l) = k `min` length l.
Proof. unfold last_k. rewrite length_drop. lia. Qed.

Lemma last_k_mono {A : Type} (k k' : nat) (l : list A) :
  k ≤ k' → last_k k l `sublist_of` last_k k' l.
Proof.
  intros Hk. unfold last_k. set (n := length l).
  replace (n - k) with ((n - k') + ((n - k) - (n - k'))) by lia.
  rewrite <- drop_drop. apply sublist_drop.
Qed.

Lemma indicator_lookup (n : nat) (idx : list nat) (i : nat) :
  Forall (λ j, j < n) idx →
  ((λ j, bool_decide (j ∈ idx)) <$> seq 0 n) !! i = Some true ↔ i ∈ idx.
Proof.
  intros Hall. rewrite list_lookup_fmap. split.
  - destruct (seq 0 n !! i) as [j|] eqn:Hj; [|done].
    apply lookup_seq in Hj as [-> _]. simpl. intros [= Hb].
    by apply bool_decide_eq_true in Hb.
  - intros Hi. rewrite lookup_seq_lt by by apply (proj1 (Forall_forall _ _) Hall).
    simpl. by rewrite bool_decide_eq_true_2.
Qed.

Section LastKContract.
Context {score : Type} (ltb : score → score → bool).
Variable argsort : list score → list nat.
Hypothesis Hsort : Np.argsort_spec ltb argsort.

Lemma last_k_in_range scores k :
  Forall (λ i, i < length scores) (last_k k (argsort scores)).
Proof.
  apply Forall_forall. intros i Hi. apply (argsort_elem_of ltb argsort Hsort).
  eapply elem_of_sublist; [exact Hi|apply last_k_sublist].
Qed.

Lemma last_k_NoDup scores k : NoDup (last_k k (argsort scores)).
Proof.
  eapply sublist_NoDup; [apply (argsort_NoDup ltb argsort Hsort)|apply last_k_sublist].
Qed.

Lemma select_last_k_closed scores k :
  select_last_k argsort scores k =
  Some ((λ j, bool_decide (j ∈ last_k k (argsort scores))) <$> seq 0 (length scores)).
Proof. apply setitem_true_zeros, last_k_in_range. Qed.

End LastKContract.

(** ** Number of selected genes *)

(** C1: for every score vector and every [k], [select_top_k(scores, k)],
    which marks the last [k] indices of the sorted order, returns a boolean
    vector with one entry per score of which exactly [min k (len scores)]
    are true; for every [k] from 1 on, the cell's 4000 among them, this is
    the mask that the slice [[-k:]] of the cell gives. *)
Theorem select_last_k_count {score : Type} (ltb : score → score → bool)
    (argsort : list score → list nat) (scores : list score) (k : nat) :
  Np.argsort_spec ltb argsort →
  ∃ mask,
    select_last_k argsort scores k = Some mask ∧
    length mask = length scores ∧
    Np.count_nonzero mask = k `min` length scores ∧
    (0 < k → select_top_k argsort scores k = Some mask).
Proof.
  intros Hsort. eexists. split; [apply (select_last_k_closed _ _ Hsort)|].
  split; [by rewrite length_fmap, length_seq|]. split.
  - rewrite count_nonzero_indicator.
    + by rewrite last_k_length, (argsort_length _ _ Hsort).
    + apply (last_k_NoDup _ _ Hsort).
    + apply (last_k_in_range _ _ Hsort).
  - intros Hk. rewrite <- select_last_k_top_k by done.
    apply (select_last_k_closed _ _ Hsort).
Qed.

Lemma select_last_k_count_witness :
  Np.argsort_spec Z.ltb (stable_argsort Z.ltb) ∧
  ∃ mask,
    select_last_k (stable_argsort Z.ltb) [7; 9; 3; 9]%Z 2 = Some mask ∧
    length mask = 4 ∧ Np.count_nonzero mask = 2 ∧
    (0 < 2 → select_top_k (stable_argsort Z.ltb) [7; 9; 3; 9]%Z 2 = Some mask).
Proof.
  split; [apply stable_argsort_spec, Z_ltb_order|].
  apply (select_last_k_count Z.ltb (stable_argsort Z.ltb) [7; 9; 3; 9]%Z 2).
  apply stable_argsort_spec, Z_ltb_order.
Defined.

(** ** Monotonicity in [k] *)

(** C3: for every score vector and every [k], every gene marked true by
    [select_top_k(scores, k)] is also marked true by
    [select_top_k(scores, k + 1)]; for every [k] from 1 on the two masks
    are the ones that the slices [[-k:]] and [[-(k+1):]] of the cell give. *)
Theorem select_last_k_mono {score : Type} (ltb : score → score → bool)
    (argsort : list score → list nat) (scores : list score) (k : nat) :
  Np.argsort_spec ltb argsort →
  ∃ mask mask',
    select_last_k argsort scores k = Some mask ∧
    select_last_k argsort scores (k + 1) = Some mask' ∧
    (∀ i, mask !! i = Some true → mask' !! i = Some true) ∧
    (0 < k →
     select_top_k argsort scores k = Some mask ∧
     select_top_k argsort scores (k + 1) = Some mask').
Proof.
  intros Hsort. do 2 eexists.
  split; [apply (select_last_k_closed _ _ Hsort)|].
  split; [apply (select_last_k_closed _ _ Hsort)|]. split.
  - intros i Hi.
    apply indicator_lookup; [apply (last_k_in_range _ _ Hsort)|].
    apply indicator_lookup in Hi; [|apply (last_k_in_range _ _ Hsort)].
    eapply elem_of_sublist; [exact Hi|apply last_k_mono; lia].
  - intros Hk. rewrite <- !select_last_k_top_k by lia.
    split; apply (select_last_k_closed _ _ Hsort).
Qed.

Lemma select_last_k_mono_witness :
  Np.argsort_spec Z.ltb (stable_argsort Z.ltb) ∧
  ∃ mask mask',
    select_last_k (stable_argsort Z.ltb) [7; 9; 3]%Z 1 = Some mask ∧
    select_last_k (stable_argsort Z.ltb) [7; 9; 3]%Z (1 + 1) = Some mask' ∧
    (∀ i, mask !! i = Some true → mask' !! i = Some true) ∧
    (0 < 1 →
     select_top_k (stable_argsort Z.ltb) [7; 9; 3]%Z 1 = Some mask ∧
     select_top_k (stable_argsort Z.ltb) [7; 9; 3]%Z (1 + 1) = Some mask').
Proof.
  split; [apply stable_argsort_spec, Z_ltb_order|].
  apply (select_last_k_mono Z.ltb (stable_argsort Z.ltb) [7; 9; 3]%Z 1).
  apply stable_argsort_spec, Z_ltb_order.
Defined.

(** ** [k] beyond the length *)

(** C4: if [k] exceeds the length of the score vector, the mask is true at
    every index. *)
Theorem select_top_k_exceeds {score : Type} (ltb : score → score → bool)
    (argsort : list score → list nat) (scores : list score) (k : nat) :
  Np.argsort_spec ltb argsort →
  length scores < k →
  select_top_k argsort scores k = Some (replicate (length scores) true).
Proof.
  intros Hsort Hk. apply (select_top_k_everything _ _ Hsort). right. lia.
Qed.

Lemma select_top_k_exceeds_witness :
  Np.argsort_spec Z.ltb (stable_argsort Z.ltb) ∧ length [7; 9; 3]%Z < 4000 ∧
  select_top_k (stable_argsort Z.ltb) [7; 9; 3]%Z 4000 = Some [true; true; true].
Proof.
  split; [apply stable_argsort_spec, Z_ltb_order|]. split; [simpl; lia|].
  apply (select_top_k_exceeds Z.ltb (stable_argsort Z.ltb) [7; 9; 3]%Z 4000); [|simpl; lia].
  apply stable_argsort_spec, Z_ltb_order.
Defined.

(** ** No better gene is skipped *)

(** C10: whenever gene [i] is marked true by [select_top_k scores k] and
    gene [j] has a strictly greater score, gene [j] is marked true as well,
    however the sort orders equal scores. *)
Theorem select_top_k_upward {score : Type} (ltb : score → score → bool)
    (argsort : list score → list nat) (scores : list score) (k : nat) :
  Np.argsort_spec ltb argsort →
  ∃ mask,
    select_top_k argsort scores k = Some mask ∧
    ∀ i j x y,
      mask !! i = Some true →
      scores !! i = Some x → scores !! j = Some y → ltb x y = true →
      mask !! j = Some true.
Proof.
  intros Hsort. eexists. split; [apply (select_top_k_closed _ _ Hsort)|].
  intros i j x y Hi Hx Hy Hxy.
  apply (select_top_k_lookup _ _ Hsort scores k); [apply (select_top_k_closed _ _ Hsort)|].
  apply (select_top_k_lookup _ _ Hsort scores k) in Hi; [|apply (select_top_k_closed _ _ Hsort)].
  by apply (top_idx_upward _ _ Hsort scores k i j x y).
Qed.

Lemma select_top_k_upward_witness :
  Np.argsort_spec Z.ltb (stable_argsort Z.ltb) ∧
  ∃ mask,
    select_top_k (stable_argsort Z.ltb) [7; 9; 3; 7]%Z 2 = Some mask ∧
    ∀ i j x y,
      mask !! i = Some true →
      [7; 9; 3; 7]%Z !! i = Some x → [7; 9; 3; 7]%Z !! j = Some y → (x <? y)%Z = true →
      mask !! j = Some true.
Proof.
  split; [apply stable_argsort_spec, Z_ltb_order|].
  apply (select_top_k_upward Z.ltb (stable_argsort Z.ltb) [7; 9; 3; 7]%Z 2).
  apply stable_argsort_spec, Z_ltb_order.
Defined.

(** ** Ties at the selection boundary *)

Lemma count_nonzero_cons b mask :
  Np.count_nonzero (b :: mask) = (if b then 1 else 0) + Np.count_nonzero mask.
Proof. unfold Np.count_nonzero. rewrite filter_cons. by destruct b. Qed.

(** A mask with fewer true entries misses one that the other has. *)
Lemma count_nonzero_lt_gap (m m' : list bool) :
  length m = length m' → Np.count_nonzero m < Np.count_nonzero m' →
  ∃ j, m !! j = Some false ∧ m' !! j = Some true.
Proof.
  revert m'. induction m as [|b m IH]; intros [|b' m'] Hlen Hc; simplify_eq/=.
  { unfold Np.count_nonzero in Hc. simpl in Hc. lia. }
  rewrite !count_nonzero_cons in Hc.
  destruct b, b'; try (by exists 0);
    (destruct (IH m') as [j Hj]; [done|lia|by exists (S j)]).
Qed.

Lemma count_nonzero_le_gap (m m' : list bool) i :
  length m = length m' → Np.count_nonzero m ≤ Np.count_nonzero m' →
  m !! i = Some true → m' !! i = Some false →
  ∃ j, m !! j = Some false ∧ m' !! j = Some true.
Proof.
  revert m' i. induction m as [|b m IH]; intros [|b' m'] i Hlen Hc Hi Hi'; simplify_eq/=.
  rewrite !count_nonzero_cons in Hc. destruct i as [|i]; simplify_eq/=.
  - destruct (count_nonzero_lt_gap m m') as [j Hj]; [done|lia|by exists (S j)].
  - destruct b, b'; try (by exists 0);
      (destruct (IH m' i) as [j Hj]; [done|lia|done|done|by exists (S j)]).
Qed.

(** Two masks of one length with equally many true entries, one inside the
    other, are the same mask. *)
Lemma mask_subset_eq (m m' : list bool) :
  length m = length m' → Np.count_nonzero m = Np.count_nonzero m' →
  (∀ i, m !! i = Some true → m' !! i = Some true) → m = m'.
Proof.
  intros Hlen Hc Hsub. apply list_eq. intros i.
  destruct (m !! i) as [b|] eqn:Hb; destruct (m' !! i) as [b'|] eqn:Hb'.
  - destruct b, b'; try done.
    + by rewrite (Hsub i Hb) in Hb'.
    + destruct (count_nonzero_le_gap m' m i) as [j [Hj Hj']]; [done|lia|done|done|].
      by rewrite (Hsub j Hj') in Hj.
  - apply lookup_lt_Some in Hb. apply lookup_ge_None in Hb'. lia.
  - apply lookup_lt_Some in Hb'. apply lookup_ge_None in Hb. lia.
  - done.
Qed.

(** Two sorts that meet the contract select the same genes, unless a gene
    that one of them selects has the same score as a gene it leaves out. *)
Lemma masks_agree_unless_tied {score : Type} (ltb : score → score → bool)
    (argsort argsort' : list score → list nat) (scores : list score) (k : nat)
    (mask mask' : list bool) :
  strict_total_order ltb →
  Np.argsort_spec ltb argsort → Np.argsort_spec ltb argsort' →
  select_top_k argsort scores k = Some mask →
  select_top_k argsort' scores k = Some mask' →
  (∀ i j x,
     mask' !! i = Some true → mask' !! j = Some false →
     scores !! i = Some x → scores !! j = Some x → False) →
  mask = mask'.
Proof.
  intros Hord Hsort Hsort' Hmask Hmask' Hties.
  pose proof (select_top_k_length _ _ Hsort _ _ _ Hmask) as Hlen.
  pose proof (select_top_k_length _ _ Hsort' _ _ _ Hmask') as Hlen'.
  pose proof (mask_count_top_idx _ _ Hsort _ _ _ Hmask) as Hc.
  pose proof (mask_count_top_idx _ _ Hsort' _ _ _ Hmask') as Hc'.
  rewrite (top_idx_length _ _ Hsort) in Hc. rewrite (top_idx_length _ _ Hsort') in Hc'.
  apply mask_subset_eq; [congruence|congruence|].
  intros i Hi.
  destruct (mask' !! i) as [[]|] eqn:Hi'; [done| |].
  2: { apply lookup_lt_Some in Hi. apply lookup_ge_None in Hi'. lia. }
  exfalso.
  destruct (count_nonzero_le_gap mask mask' i) as [j [Hj Hj']]; [congruence|lia|done|done|].
  destruct (lookup_lt_is_Some_2 scores i) as [x Hx]; [apply lookup_lt_Some in Hi; lia|].
  destruct (lookup_lt_is_Some_2 scores j) as [y Hy]; [apply lookup_lt_Some in Hj; lia|].
  assert (ltb y x = false) as Hyx.
  { destruct (ltb y x) eqn:Hyx; [|done].
    apply (select_top_k_lookup _ _ Hsort' _ _ _ j Hmask') in Hj'.
    pose proof (top_idx_upward _ _ Hsort' scores k j i y x Hj' Hy Hx Hyx) as Hin.
    apply (select_top_k_lookup _ _ Hsort' _ _ _ i Hmask') in Hin. congruence. }
  assert (ltb x y = false) as Hxy.
  { destruct (ltb x y) eqn:Hxy; [|done].
    apply (select_top_k_lookup _ _ Hsort _ _ _ i Hmask) in Hi.
    pose proof (top_idx_upward _ _ Hsort scores k i j x y Hi Hx Hy Hxy) as Hin.
    apply (select_top_k_lookup _ _ Hsort _ _ _ j Hmask) in Hin. congruence. }
  pose proof (ltb_total ltb Hord x y Hxy Hyx) as ->.
  exact (Hties j i y Hj' Hi' Hy Hx).
Qed.

(** The contract of [argsort] leaves the order of equal scores open: a
    sort that meets it and puts equal scores in reverse index order gives
    another top-1 mask on [[5; 5]] than the stable ascending sort. *)
Lemma contract_leaves_ties_open :
  Np.argsort_spec Z.ltb (antistable_argsort Z.ltb) ∧
  select_top_k (stable_argsort Z.ltb) [5; 5]%Z 1 = Some [false; true] ∧
  select_top_k (antistable_argsort Z.ltb) [5; 5]%Z 1 = Some [true; false].
Proof.
  split; [apply antistable_argsort_spec, Z_ltb_order|]. by split.
Qed.

(** Whatever order the sort gives to equal scores, the mask of
    [select_top_k] is true exactly at the indices of the slice [[-k:]] of
    the sorted order, and whenever no gene selected by the stable ascending
    sort has the same score as a gene it leaves out, the mask is the one
    obtained from the stable ascending sort. *)
Theorem select_top_k_stable_unless_tied {score : Type} (ltb : score → score → bool)
    (argsort : list score → list nat) (scores : list score) (k : nat) :
  strict_total_order ltb →
  Np.argsort_spec ltb argsort →
  ∃ mask stable_mask,
    select_top_k argsort scores k = Some mask ∧
    select_top_k (stable_argsort ltb) scores k = Some stable_mask ∧
    (∀ i, mask !! i = Some true ↔ i ∈ Py.slice_from (- Z.of_nat k) (argsort scores)) ∧
    ((∀ i j x,
        stable_mask !! i = Some true → stable_mask !! j = Some false →
        scores !! i = Some x → scores !! j = Some x → False) →
     mask = stable_mask).
Proof.
  intros Hord Hsort.
  pose proof (stable_argsort_spec ltb Hord) as Hsort'.
  pose proof (select_top_k_closed _ _ Hsort scores k) as Hmask.
  pose proof (select_top_k_closed _ _ Hsort' scores k) as Hstable.
  set (mask := (λ j, bool_decide (j ∈ top_idx argsort scores k)) <$> seq 0 (length scores)) in *.
  set (stable_mask :=
         (λ j, bool_decide (j ∈ top_idx (stable_argsort ltb) scores k)) <$> seq 0 (length scores)) in *.
  exists mask, stable_mask. do 2 (split; [done|]).
  split; [intros i; apply (select_top_k_lookup _ _ Hsort _ _ _ i Hmask)|].
  intros Hties.
  by apply (masks_agree_unless_tied ltb argsort (stable_argsort ltb) scores k).
Qed.

Lemma select_top_k_stable_unless_tied_witness :
  strict_total_order Z.ltb ∧
  Np.argsort_spec Z.ltb (antistable_argsort Z.ltb) ∧
  select_top_k (stable_argsort Z.ltb) [5; 1; 5; 1]%Z 2 = Some [true; false; true; false] ∧
  select_top_k (antistable_argsort Z.ltb) [5; 1; 5; 1]%Z 2 = Some [true; false; true; false].
Proof.
  split; [apply Z_ltb_order|].
  split; [apply antistable_argsort_spec, Z_ltb_order|].
  split; [reflexivity|].
  destruct (select_top_k_stable_unless_tied Z.ltb (antistable_argsort Z.ltb)
              [5; 1; 5; 1]%Z 2 Z_ltb_order (antistable_argsort_spec Z.ltb Z_ltb_order))
    as (mask & stable_mask & Hmask & Hstable & _ & Heq).
  rewrite Hmask. f_equal. rewrite Heq; [by injection Hstable|].
  injection Hstable as <-.
  intros [|[|[|[|i]]]] [|[|[|[|j]]]] x; simpl; intros; simplify_eq.
Defined.

(** ** The frame of the notebook *)

Section DataFrameFacts.
Context {score : Type}.
Implicit Types (cols : list (string * Pd.column score)) (c : Pd.column score).

Lemma lookup_assign_eq cols key c :
  Pd.lookup_column (Pd.assign_column cols key c) key = Some c.
Proof.
  induction cols as [|[name c0] cols IH]; simpl.
  - by rewrite decide_True.
  - destruct (decide (name = key)) as [->|Hne]; simpl.
    + by rewrite decide_True.
    + by rewrite decide_False.
Qed.

Lemma lookup_assign_ne cols key c name :
  name ≠ key →
  Pd.lookup_column (Pd.assign_column cols key c) name = Pd.lookup_column cols name.
Proof.
  intros Hne. induction cols as [|[name0 c0] cols IH]; simpl.
  - by rewrite decide_False by done.
  - destruct (decide (name0 = key)) as [->|Hne0]; simpl.
    + by rewrite !decide_False by done.
    + by rewrite IH.
Qed.



Lemma setitem_Some (df : Pd.DataFrame score) key c :
  Pd.column_len c = length (Pd.index df) →
  Pd.setitem df key c
    = Some (Pd.mkDataFrame (Pd.index df) (Pd.assign_column (Pd.columns df) key c)).
Proof. intros Hlen. unfold Pd.setitem. by rewrite decide_True. Qed.

(** The cell succeeds when the score vector has one entry per gene. *)
Lemma feature_selection_cell_run
    (argsort : list score → list nat) (dev : list score) (adata : AnnData score) mask :
  length dev = length (var_names adata) →
  select_top_k argsort dev 4000 = Some mask →
  length mask = length dev →
  feature_selection_cell argsort dev adata =
    Some (mkAnnData (X adata) (obs adata)
            (Pd.mkDataFrame (Pd.index (var adata))
               (Pd.assign_column
                  (Pd.assign_column (Pd.columns (var adata)) "highly_deviant" (Pd.BoolCol mask))
                  "binomial_deviance" (Pd.FloatCol dev)))
            (layers adata)).
Proof.
  intros Hlen Hmask Hmlen. unfold feature_selection_cell.
  rewrite <- Hlen. fold (select_top_k argsort dev 4000). rewrite Hmask.
  cbn [mbind option_bind].
  rewrite setitem_Some by (simpl; unfold var_names in Hlen; congruence).
  cbn [mbind option_bind].
  rewrite setitem_Some by (simpl; unfold var_names in Hlen; congruence).
  done.
Qed.

End DataFrameFacts.




(** ** Further properties of the cell *)

(** With two genes of which the second has the strictly greater score, the
    top-1 mask selects the second gene only, whatever the sort. *)
Theorem select_top_1_of_two {score : Type} (ltb : score → score → bool)
    (argsort : list score → list nat) (x y : score) :
  Np.argsort_spec ltb argsort →
  ltb x y = true →
  select_top_k argsort [x; y] 1 = Some [false; true].
Proof.
  intros Hsort Hxy.
  pose proof (select_top_k_closed _ _ Hsort [x; y] 1) as Hmask.
  rewrite Hmask. f_equal.
  set (mask := _ <$> _) in *.
  pose proof (select_top_k_length _ _ Hsort _ _ _ Hmask) as Hlen.
  pose proof (mask_count_top_idx _ _ Hsort _ _ _ Hmask) as Hc.
  rewrite (top_idx_length _ _ Hsort) in Hc.
  assert (mask !! 0 = Some true → mask !! 1 = Some true) as Hup.
  { intros H0. apply (select_top_k_lookup _ _ Hsort _ _ _ 0 Hmask) in H0.
    apply (select_top_k_lookup _ _ Hsort _ _ _ 1 Hmask).
    by apply (top_idx_upward _ _ Hsort [x; y] 1 0 1 x y). }
  clearbody mask. simpl in Hc, Hlen.
  destruct mask as [|b0 [|b1 [|]]]; simplify_eq/=.
  rewrite !count_nonzero_cons in Hc.
  destruct b0, b1; simpl in *; try done; try (by specialize (Hup eq_refl)).
Qed.

Lemma select_top_1_of_two_witness :
  Np.argsort_spec Z.ltb (antistable_argsort Z.ltb) ∧ (4 <? 30)%Z = true ∧
  select_top_k (antistable_argsort Z.ltb) [4; 30]%Z 1 = Some [false; true].
Proof.
  split; [apply antistable_argsort_spec, Z_ltb_order|]. split; [reflexivity|].
  apply (select_top_1_of_two Z.ltb (antistable_argsort Z.ltb) 4%Z 30%Z); [|reflexivity].
  apply antistable_argsort_spec, Z_ltb_order.
Defined.

(** When the scores are pairwise distinct the mask does not depend on the
    sort: any two sorts that meet the contract give the same mask. *)
Theorem select_top_k_distinct_scores {score : Type} (ltb : score → score → bool)
    (argsort argsort' : list score → list nat) (scores : list score) (k : nat) :
  strict_total_order ltb →
  Np.argsort_spec ltb argsort → Np.argsort_spec ltb argsort' →
  NoDup scores →
  select_top_k argsort scores k = select_top_k argsort' scores k.
Proof.
  intros Hord Hsort Hsort' Hnd.
  pose proof (select_top_k_closed _ _ Hsort scores k) as Hmask.
  pose proof (select_top_k_closed _ _ Hsort' scores k) as Hmask'.
  rewrite Hmask, Hmask'. f_equal.
  eapply (masks_agree_unless_tied ltb argsort argsort' scores k); [done..|].
  intros i j x Hi Hj Hx Hy.
  assert (i = j) as -> by by eapply NoDup_lookup.
  congruence.
Qed.

Lemma select_top_k_distinct_scores_witness :
  strict_total_order Z.ltb ∧
  Np.argsort_spec Z.ltb (stable_argsort Z.ltb) ∧
  Np.argsort_spec Z.ltb (antistable_argsort Z.ltb) ∧
  NoDup [7; 9; 3]%Z ∧
  select_top_k (stable_argsort Z.ltb) [7; 9; 3]%Z 2
    = select_top_k (antistable_argsort Z.ltb) [7; 9; 3]%Z 2.
Proof.
  assert (NoDup [7; 9; 3]%Z) as Hnd.
  { repeat constructor; rewrite ?elem_of_cons, ?elem_of_nil; intros H;
      repeat (destruct H as [H|H]; [discriminate H|]); done. }
  split; [apply Z_ltb_order|].
  split; [apply stable_argsort_spec, Z_ltb_order|].
  split; [apply antistable_argsort_spec, Z_ltb_order|]. split; [exact Hnd|].
  apply (select_top_k_distinct_scores Z.ltb (stable_argsort Z.ltb)
           (antistable_argsort Z.ltb) [7; 9; 3]%Z 2).
  - apply Z_ltb_order.
  - apply stable_argsort_spec, Z_ltb_order.
  - apply antistable_argsort_spec, Z_ltb_order.
  - exact Hnd.
Defined.

(** A score vector whose length differs from the number of genes makes
    the cell raise ([IndexError] from the mask or [ValueError] from the
    column assignment), and the notebook writes nothing. *)
Theorem notebook_length_mismatch {score : Type}
    (argsort : list score → list nat)
    (devianceFeatureSelection : list (list Z) → list score)
    (files : gmap string (AnnData score)) (adata : AnnData score) :
  files !! "s4d8_normalization.h5ad" = Some adata →
  length (devianceFeatureSelection (X adata)) ≠ length (var_names adata) →
  feature_selection_cell argsort (devianceFeatureSelection (X adata)) adata = None ∧
  notebook argsort devianceFeatureSelection files = None.
Proof.
  intros Hfile Hlen.
  assert (feature_selection_cell argsort (devianceFeatureSelection (X adata)) adata = None)
    as Hcell.
  { unfold feature_selection_cell.
    destruct (highly_deviant_mask _ _ _ _) as [mask|]; [|done]. cbn [mbind option_bind].
    destruct (Pd.setitem (var adata) _ _) as [var1|] eqn:Hvar1; [|done].
    cbn [mbind option_bind].
    unfold Pd.setitem in Hvar1. destruct (decide _) in Hvar1; [|done].
    injection Hvar1 as <-. unfold Pd.setitem. simpl. by rewrite decide_False. }
  split; [done|]. unfold notebook. rewrite Hfile. cbn [mbind option_bind].
  by rewrite Hcell.
Qed.

Lemma notebook_length_mismatch_witness :
  ({["s4d8_normalization.h5ad" := adata_rerun]} : gmap string (AnnData Z))
    !! "s4d8_normalization.h5ad" = Some adata_rerun ∧
  length [30; 4; 5]%Z ≠ length (var_names adata_rerun) ∧
  notebook (stable_argsort Z.ltb) (λ _, [30; 4; 5]%Z)
    {["s4d8_normalization.h5ad" := adata_rerun]} = None.
Proof.
  split; [apply lookup_singleton_eq|]. split; [simpl; lia|].
  apply (notebook_length_mismatch (stable_argsort Z.ltb) (λ _, [30; 4; 5]%Z)
           {["s4d8_normalization.h5ad" := adata_rerun]} adata_rerun).
  - apply lookup_singleton_eq.
  - simpl. lia.
Defined.

(** ** The mask lines on their own *)

Lemma setitem_true_in_range mask idx mask' :
  Np.setitem_true mask idx = Some mask' → Forall (λ i, i < length mask) idx.
Proof.
  revert mask. induction idx as [|i idx IH]; intros mask; simpl; [by constructor|].
  destruct (decide (i < length mask)); [|done].
  intros Hm%IH. rewrite length_insert in Hm. by constructor.
Qed.

(** The three lines that build the mask, in closed form and without any
    assumption on the sort: they succeed exactly when every selected index
    is below the number of genes, and the mask then has one entry per gene,
    true exactly at the selected indices; otherwise [mask[idx] = True]
    raises [IndexError]. *)
Theorem highly_deviant_mask_closed {score : Type}
    (argsort : list score → list nat) (n_vars : nat) (scores : list score) (k : nat) :
  highly_deviant_mask argsort n_vars scores k =
    if decide (Forall (λ i, i < n_vars) (top_idx argsort scores k))
    then Some ((λ j, bool_decide (j ∈ top_idx argsort scores k)) <$> seq 0 n_vars)
    else None.
Proof.
  unfold highly_deviant_mask.
  destruct (decide (Forall _ _)) as [Hall|Hout]; [by apply setitem_true_zeros|].
  destruct (Np.setitem_true _ _) as [mask|] eqn:Hmask; [|done].
  apply setitem_true_in_range in Hmask. unfold Np.zeros in Hmask.
  by rewrite length_replicate in Hmask.
Qed.

(** ** Running the cell again, and what it leaves of the gene table *)

Section CellFacts.
Context {score : Type}.
Implicit Types (cols : list (string * Pd.column score)) (c : Pd.column score).

Lemma assign_column_same cols key c :
  Pd.lookup_column cols key = Some c → Pd.assign_column cols key c = cols.
Proof.
  induction cols as [|[name c0] cols IH]; simpl; [done|].
  destruct (decide (name = key)) as [->|Hne].
  - by intros [= ->].
  - intros Hc. by rewrite IH.
Qed.

Lemma assign_column_names cols key c :
  (Pd.assign_column cols key c).*1 = cols.*1 ∨
  (Pd.assign_column cols key c).*1 = cols.*1 ++ [key].
Proof.
  induction cols as [|[name c0] cols IH]; simpl; [by right|].
  destruct (decide (name = key)) as [->|Hne]; [by left|].
  rewrite !fmap_cons. simpl. destruct IH as [IH|IH]; rewrite IH; [by left|by right].
Qed.

(** A successful run of the cell, taken apart. *)
Lemma feature_selection_cell_inv (argsort : list score → list nat)
    (dev : list score) (adata adata' : AnnData score) :
  feature_selection_cell argsort dev adata = Some adata' →
  ∃ mask,
    highly_deviant_mask argsort (length (var_names adata)) dev 4000 = Some mask ∧
    length mask = length (var_names adata) ∧
    length dev = length (var_names adata) ∧
    adata' =
      mkAnnData (X adata) (obs adata)
        (Pd.mkDataFrame (Pd.index (var adata))
           (Pd.assign_column
              (Pd.assign_column (Pd.columns (var adata)) "highly_deviant" (Pd.BoolCol mask))
              "binomial_deviance" (Pd.FloatCol dev)))
        (layers adata).
Proof.
  unfold feature_selection_cell.
  destruct (highly_deviant_mask _ _ _ _) as [mask|] eqn:Hmask; [|done].
  cbn [mbind option_bind].
  destruct (Pd.setitem (var adata) _ _) as [var1|] eqn:Hvar1; [|done].
  cbn [mbind option_bind].
  destruct (Pd.setitem var1 _ _) as [var2|] eqn:Hvar2; [|done].
  cbn [mbind option_bind]. intros [= <-].
  unfold Pd.setitem in Hvar1. destruct (decide _) as [Hl1|] in Hvar1; [|done].
  injection Hvar1 as <-.
  unfold Pd.setitem in Hvar2. destruct (decide _) as [Hl2|] in Hvar2; [|done].
  injection Hvar2 as <-. simpl in *.
  exists mask. by repeat split.
Qed.

End CellFacts.

(** Running the cell a second time on the object it produced, with the
    same score vector, changes nothing: both columns are overwritten with
    the values they hold. *)
Theorem feature_selection_cell_idempotent {score : Type}
    (argsort : list score → list nat) (dev : list score)
    (adata adata' : AnnData score) :
  feature_selection_cell argsort dev adata = Some adata' →
  feature_selection_cell argsort dev adata' = Some adata'.
Proof.
  intros (mask & Hmask & Hmlen & Hdlen & ->)%feature_selection_cell_inv.
  unfold feature_selection_cell, var_names in *. simpl.
  rewrite Hmask. cbn [mbind option_bind].
  rewrite setitem_Some by (simpl; congruence). cbn [mbind option_bind].
  rewrite setitem_Some by (simpl; congruence). cbn [mbind option_bind]. simpl.
  set (cols := Pd.assign_column
                 (Pd.assign_column (Pd.columns (var adata)) "highly_deviant" (Pd.BoolCol mask))
                 "binomial_deviance" (Pd.FloatCol dev)).
  assert (Pd.assign_column cols "highly_deviant" (Pd.BoolCol mask) = cols) as ->.
  { apply assign_column_same. unfold cols.
    by rewrite lookup_assign_ne, lookup_assign_eq. }
  assert (Pd.assign_column cols "binomial_deviance" (Pd.FloatCol dev) = cols) as ->.
  { apply assign_column_same. unfold cols. by rewrite lookup_assign_eq. }
  done.
Qed.

Lemma feature_selection_cell_idempotent_witness :
  ∃ adata',
    feature_selection_cell (antistable_argsort Z.ltb) [30; 4]%Z adata_rerun = Some adata' ∧
    adata' ≠ adata_rerun ∧
    feature_selection_cell (antistable_argsort Z.ltb) [30; 4]%Z adata' = Some adata'.
Proof.
  eexists. split; [vm_compute; reflexivity|]. split; [discriminate|].
  apply (feature_selection_cell_idempotent (antistable_argsort Z.ltb) [30; 4]%Z adata_rerun).
  vm_compute. reflexivity.
Defined.

(** The cell never drops, renames or reorders a column of the gene table
    and never touches its index: the column names it finds are a prefix of
    the names it leaves, and at most two names are added. *)
Theorem feature_selection_cell_keeps_columns {score : Type}
    (argsort : list score → list nat) (dev : list score)
    (adata adata' : AnnData score) :
  feature_selection_cell argsort dev adata = Some adata' →
  Pd.index (var adata') = Pd.index (var adata) ∧
  (Pd.columns (var adata)).*1 `prefix_of` (Pd.columns (var adata')).*1 ∧
  length (Pd.columns (var adata')) ≤ length (Pd.columns (var adata)) + 2.
Proof.
  intros (mask & _ & _ & _ & ->)%feature_selection_cell_inv. simpl.
  split; [done|].
  set (cols := Pd.columns (var adata)).
  set (cols1 := Pd.assign_column cols "highly_deviant" (Pd.BoolCol mask)).
  pose proof (assign_column_names cols "highly_deviant" (Pd.BoolCol mask)) as H1.
  pose proof (assign_column_names cols1 "binomial_deviance" (Pd.FloatCol dev)) as H2.
  fold cols1 in H1.
  split.
  - destruct H2 as [-> | ->], H1 as [-> | ->];
      rewrite <- ?app_assoc; try done; by apply prefix_app_r.
  - rewrite <- !(length_fmap fst).
    destruct H2 as [-> | ->], H1 as [-> | ->]; rewrite ?length_app; simpl; lia.
Qed.

Lemma feature_selection_cell_keeps_columns_witness :
  ∃ adata',
    feature_selection_cell (stable_argsort Z.ltb) [30; 4]%Z adata_rerun = Some adata' ∧
    Pd.index (var adata') = ["g0"; "g1"] ∧
    ["highly_deviant"; "binomial_deviance"] `prefix_of` (Pd.columns (var adata')).*1 ∧
    length (Pd.columns (var adata')) ≤ 2 + 2.
Proof.
  eexists. split; [vm_compute; reflexivity|].
  apply (feature_selection_cell_keeps_columns (stable_argsort Z.ltb) [30; 4]%Z adata_rerun).
  vm_compute. reflexivity.
Defined.

(** ** The two written columns, read together *)

(** For positive sizes the slice for a smaller [k] lies inside the slice
    for a larger one. *)
Lemma top_idx_mono {score : Type} (argsort : list score → list nat)
    (scores : list score) (k k' : nat) (i : nat) :
  0 < k → k ≤ k' →
  i ∈ top_idx argsort scores k → i ∈ top_idx argsort scores k'.
Proof.
  intros Hk Hkk'. unfold top_idx. rewrite !slice_from_neg, !decide_False by lia.
  set (n := length (argsort scores)).
  replace (n - k) with ((n - k') + ((n - k) - (n - k'))) by lia.
  rewrite <- drop_drop. intros Hi.
  eapply elem_of_sublist; [exact Hi|apply sublist_drop].
Qed.

(** In the file the notebook writes, the flag column marks exactly
    [min 4000 n] of the [n] genes, and no gene it leaves unmarked has a
    strictly greater value in the score column than a gene it marks. *)
Theorem notebook_columns_consistent {score : Type} (ltb : score → score → bool)
    (argsort : list score → list nat)
    (devianceFeatureSelection : list (list Z) → list score)
    (files : gmap string (AnnData score)) (adata : AnnData score) :
  Np.argsort_spec ltb argsort →
  files !! "s4d8_normalization.h5ad" = Some adata →
  length (devianceFeatureSelection (X adata)) = length (var_names adata) →
  ∃ files' adata' mask dev,
    notebook argsort devianceFeatureSelection files = Some files' ∧
    files' !! "s4d8_feature_selection.h5ad" = Some adata' ∧
    Pd.lookup_column (Pd.columns (var adata')) "highly_deviant" = Some (Pd.BoolCol mask) ∧
    Pd.lookup_column (Pd.columns (var adata')) "binomial_deviance" = Some (Pd.FloatCol dev) ∧
    length mask = length (var_names adata') ∧
    length dev = length (var_names adata') ∧
    Np.count_nonzero mask = 4000 `min` length (var_names adata') ∧
    ∀ i j x y,
      mask !! i = Some true → mask !! j = Some false →
      dev !! i = Some x → dev !! j = Some y →
      ltb x y = false.
Proof.
  intros Hsort Hfile Hlen.
  set (dev := devianceFeatureSelection (X adata)) in *.
  pose proof (select_top_k_closed _ _ Hsort dev 4000) as Hmask.
  set (mask := (λ j, bool_decide (j ∈ top_idx argsort dev 4000)) <$> seq 0 (length dev)) in *.
  pose proof (select_top_k_length _ _ Hsort _ _ _ Hmask) as Hmlen.
  pose proof (mask_count_top_idx _ _ Hsort _ _ _ Hmask) as Hc.
  rewrite (top_idx_length _ _ Hsort) in Hc.
  eexists _, _, mask, dev. split.
  { unfold notebook. rewrite Hfile. cbn [mbind option_bind]. fold dev.
    by rewrite (feature_selection_cell_run argsort dev adata mask). }
  split; [apply lookup_insert_eq|]. unfold var_names in *. simpl.
  split; [by rewrite lookup_assign_ne, lookup_assign_eq|].
  split; [by rewrite lookup_assign_eq|].
  split; [congruence|]. split; [done|].
  split; [by rewrite <- Hlen|].
  intros i j x y Hi Hj Hx Hy.
  destruct (ltb x y) eqn:Hxy; [|done].
  apply (select_top_k_lookup _ _ Hsort _ _ _ i Hmask) in Hi.
  pose proof (top_idx_upward _ _ Hsort dev 4000 i j x y Hi Hx Hy Hxy) as Hin.
  apply (select_top_k_lookup _ _ Hsort _ _ _ j Hmask) in Hin. congruence.
Qed.

Lemma notebook_columns_consistent_witness :
  Np.argsort_spec Z.ltb (stable_argsort Z.ltb) ∧
  ∃ files' adata' mask dev,
    notebook (stable_argsort Z.ltb) (λ _, [30; 4]%Z)
      {["s4d8_normalization.h5ad" := adata_rerun]} = Some files' ∧
    files' !! "s4d8_feature_selection.h5ad" = Some adata' ∧
    Pd.lookup_column (Pd.columns (var adata')) "highly_deviant" = Some (Pd.BoolCol mask) ∧
    Pd.lookup_column (Pd.columns (var adata')) "binomial_deviance" = Some (Pd.FloatCol dev) ∧
    Np.count_nonzero mask = 4000 `min` length (var_names adata').
Proof.
  split; [apply stable_argsort_spec, Z_ltb_order|].
  destruct (notebook_columns_consistent Z.ltb (stable_argsort Z.ltb) (λ _, [30; 4]%Z)
              {["s4d8_normalization.h5ad" := adata_rerun]} adata_rerun)
    as (files' & adata' & mask & dev & Hrun & Hout & Hflag & Hdev & _ & _ & Hc & _).
  - apply stable_argsort_spec, Z_ltb_order.
  - apply lookup_singleton_eq.
  - reflexivity.
  - by exists files', adata', mask, dev.
Defined.

(** A data set with at most 4000 genes is not filtered at all: the flag
    column of the written file is true for every gene. *)
Theorem notebook_few_genes_all_flagged {score : Type} (ltb : score → score → bool)
    (argsort : list score → list nat)
    (devianceFeatureSelection : list (list Z) → list score)
    (files : gmap string (AnnData score)) (adata : AnnData score) :
  Np.argsort_spec ltb argsort →
  files !! "s4d8_normalization.h5ad" = Some adata →
  length (devianceFeatureSelection (X adata)) = length (var_names adata) →
  length (var_names adata) ≤ 4000 →
  ∃ files' adata',
    notebook argsort devianceFeatureSelection files = Some files' ∧
    files' !! "s4d8_feature_selection.h5ad" = Some adata' ∧
    Pd.lookup_column (Pd.columns (var adata')) "highly_deviant"
      = Some (Pd.BoolCol (replicate (length (var_names adata)) true)).
Proof.
  intros Hsort Hfile Hlen Hfew.
  set (dev := devianceFeatureSelection (X adata)) in *.
  assert (select_top_k argsort dev 4000 = Some (replicate (length dev) true)) as Hmask.
  { apply (select_top_k_everything _ _ Hsort). right. lia. }
  eexists _, _. split.
  { unfold notebook. rewrite Hfile. cbn [mbind option_bind]. fold dev.
    rewrite (feature_selection_cell_run argsort dev adata _ Hlen Hmask)
      by apply length_replicate.
    reflexivity. }
  split; [apply lookup_insert_eq|]. simpl.
  by rewrite lookup_assign_ne, lookup_assign_eq, Hlen.
Qed.

Lemma notebook_few_genes_all_flagged_witness :
  Np.argsort_spec Z.ltb (stable_argsort Z.ltb) ∧
  length (var_names adata_rerun) ≤ 4000 ∧
  ∃ files' adata',
    notebook (stable_argsort Z.ltb) (λ _, [30; 4]%Z)
      {["s4d8_normalization.h5ad" := adata_rerun]} = Some files' ∧
    files' !! "s4d8_feature_selection.h5ad" = Some adata' ∧
    Pd.lookup_column (Pd.columns (var adata')) "highly_deviant"
      = Some (Pd.BoolCol [true; true]).
Proof.
  split; [apply stable_argsort_spec, Z_ltb_order|]. split; [simpl; lia|].
  apply (notebook_few_genes_all_flagged Z.ltb (stable_argsort Z.ltb) (λ _, [30; 4]%Z)
           {["s4d8_normalization.h5ad" := adata_rerun]} adata_rerun).
  - apply stable_argsort_spec, Z_ltb_order.
  - apply lookup_singleton_eq.
  - reflexivity.
  - simpl. lia.
Defined.

(** Selecting again from the saved score column: for every [k] from 1 to
    4000 the top-[k] mask of the saved scores marks only genes that the
    saved flag column marks, and for [k = 4000] it is the saved flag
    column. *)
Theorem subselect_within_flags {score : Type} (ltb : score → score → bool)
    (argsort : list score → list nat) (dev : list score)
    (adata adata' : AnnData score) (k : nat) :
  Np.argsort_spec ltb argsort →
  feature_selection_cell argsort dev adata = Some adata' →
  0 < k → k ≤ 4000 →
  ∃ flags saved sub,
    Pd.lookup_column (Pd.columns (var adata')) "highly_deviant" = Some (Pd.BoolCol flags) ∧
    Pd.lookup_column (Pd.columns (var adata')) "binomial_deviance" = Some (Pd.FloatCol saved) ∧
    select_top_k argsort saved k = Some sub ∧
    (∀ i, sub !! i = Some true → flags !! i = Some true) ∧
    (k = 4000 → sub = flags).
Proof.
  intros Hsort (mask & Hmask & Hmlen & Hdlen & ->)%feature_selection_cell_inv Hk Hk'.
  rewrite <- Hdlen in Hmask. fold (select_top_k argsort dev 4000) in Hmask.
  pose proof (select_top_k_closed _ _ Hsort dev k) as Hsub.
  eexists mask, dev, _. simpl.
  split; [by rewrite lookup_assign_ne, lookup_assign_eq|].
  split; [by rewrite lookup_assign_eq|].
  split; [exact Hsub|]. split.
  - intros i Hi. apply (select_top_k_lookup _ _ Hsort _ _ _ i Hsub) in Hi.
    apply (select_top_k_lookup _ _ Hsort _ _ _ i Hmask).
    by apply (top_idx_mono argsort dev k 4000).
  - intros ->. rewrite Hsub in Hmask. by injection Hmask.
Qed.

Lemma subselect_within_flags_witness :
  Np.argsort_spec Z.ltb (stable_argsort Z.ltb) ∧ 0 < 1 ∧ 1 ≤ 4000 ∧
  ∃ adata' flags saved sub,
    feature_selection_cell (stable_argsort Z.ltb) [30; 4]%Z adata_rerun = Some adata' ∧
    Pd.lookup_column (Pd.columns (var adata')) "highly_deviant" = Some (Pd.BoolCol flags) ∧
    Pd.lookup_column (Pd.columns (var adata')) "binomial_deviance" = Some (Pd.FloatCol saved) ∧
    select_top_k (stable_argsort Z.ltb) saved 1 = Some sub ∧
    (∀ i, sub !! i = Some true → flags !! i = Some true).
Proof.
  split; [apply stable_argsort_spec, Z_ltb_order|]. split; [lia|]. split; [lia|].
  eexists.
  destruct (subselect_within_flags Z.ltb (stable_argsort Z.ltb) [30; 4]%Z adata_rerun _ 1
              (stable_argsort_spec Z.ltb Z_ltb_order) eq_refl)
    as (flags & saved & sub & Hflags & Hsaved & Hsub & Hin & _); [lia|lia|].
  exists flags, saved, sub. split; [reflexivity|]. by repeat split.
Defined.

(** ** Rescaling the scores *)

(** Sorting the rescaled scores is a sort of the scores themselves when the
    rescaling is strictly increasing. *)
Lemma argsort_spec_increasing {score : Type} (ltb : score → score → bool)
    (argsort : list score → list nat) (f : score → score) :
  strict_total_order ltb →
  (∀ x y, ltb x y = true → ltb (f x) (f y) = true) →
  Np.argsort_spec ltb argsort →
  Np.argsort_spec ltb (λ a, argsort (f <$> a)).
Proof.
  intros Hord Hf Hsort. split.
  - intros a. rewrite (Np.argsort_perm _ _ Hsort). by rewrite length_fmap.
  - intros a p q i j x y Hpq Hp Hq Hx Hy.
    rewrite <- (increasing_ltb ltb Hord f Hf).
    apply (Np.argsort_sorted _ _ Hsort (f <$> a) p q i j); [done..| |].
    + by rewrite list_lookup_fmap, Hx.
    + by rewrite list_lookup_fmap, Hy.
Qed.

(** Applying a strictly increasing function to every score leaves the mask
    of [select_top_k] as it is, whenever no selected gene has the same
    score as a gene that is left out. *)
Theorem select_top_k_increasing_unless_tied {score : Type}
    (ltb : score → score → bool) (argsort : list score → list nat)
    (f : score → score) (scores : list score) (k : nat) :
  strict_total_order ltb →
  Np.argsort_spec ltb argsort →
  (∀ x y, ltb x y = true → ltb (f x) (f y) = true) →
  ∃ mask mask',
    select_top_k argsort scores k = Some mask ∧
    select_top_k argsort (f <$> scores) k = Some mask' ∧
    ((∀ i j x,
        mask !! i = Some true → mask !! j = Some false →
        scores !! i = Some x → scores !! j = Some x → False) →
     mask' = mask).
Proof.
  intros Hord Hsort Hf.
  pose proof (argsort_spec_increasing ltb argsort f Hord Hf Hsort) as Hsort'.
  pose proof (select_top_k_closed _ _ Hsort scores k) as Hmask.
  pose proof (select_top_k_closed _ _ Hsort' scores k) as Hmask'.
  do 2 eexists. split; [exact Hmask|]. split.
  - unfold select_top_k, highly_deviant_mask, top_idx in *.
    rewrite length_fmap. exact Hmask'.
  - intros Hties.
    by apply (masks_agree_unless_tied ltb (λ a, argsort (f <$> a)) argsort scores k).
Qed.

Lemma select_top_k_increasing_unless_tied_witness :
  strict_total_order Z.ltb ∧
  Np.argsort_spec Z.ltb (antistable_argsort Z.ltb) ∧
  (∀ x y, (x <? y)%Z = true → (2 * x + 1 <? 2 * y + 1)%Z = true) ∧
  select_top_k (antistable_argsort Z.ltb) [7; 9; 3; 7]%Z 1 = Some [false; true; false; false] ∧
  select_top_k (antistable_argsort Z.ltb) ((λ x, 2 * x + 1)%Z <$> [7; 9; 3; 7]%Z) 1
    = Some [false; true; false; false].
Proof.
  assert (∀ x y, (x <? y)%Z = true → (2 * x + 1 <? 2 * y + 1)%Z = true) as Hf
    by (intros; lia).
  split; [apply Z_ltb_order|].
  split; [apply antistable_argsort_spec, Z_ltb_order|]. split; [exact Hf|].
  split; [reflexivity|].
  destruct (select_top_k_increasing_unless_tied Z.ltb (antistable_argsort Z.ltb)
              (λ x, 2 * x + 1)%Z [7; 9; 3; 7]%Z 1 Z_ltb_order
              (antistable_argsort_spec Z.ltb Z_ltb_order) Hf)
    as (mask & mask' & Hmask & Hmask' & Heq).
  rewrite Hmask'. f_equal. injection Hmask as <-. apply Heq.
  intros [|[|[|[|i]]]] [|[|[|[|j]]]] x; simpl; intros; simplify_eq.
Defined.
